(** * max_prisoner.py: the body-simulation patcher and the record accessors

    A shallow embedding of [src/max_prisoner.py].  The byte buffer the script
    patches is a [list byte]; the in-place mutation of the [bytearray] is
    explicit state passing in a small state-and-exception monad; the two
    SQLite tables the script reads and writes are lists of rows under a
    column description, and the SQL statements of the accessors and of the
    skill updater are given their meaning on them. *)

From Stdlib Require Import ZArith Strings.Byte Floats.SpecFloat.
From stdpp Require Import gmap strings list fin_maps.

Local Open Scope Z_scope.

(** ** Python values and exceptions *)

(** The exception classes the script can raise.  [ValueError] comes from
    [bytearray.index], [AssertionError] from the [assert] statement,
    [OverflowError] from [struct.pack], [StructError] from [struct.unpack],
    [TypeError] from [zip] over [None], [KeyError] from a dict subscript and
    [OperationalError] from SQLite on a column the table does not have. *)
Inductive exn :=
  | ValueError
  | AssertionError
  | OverflowError
  | StructError
  | TypeError
  | KeyError
  | OperationalError.

Global Instance exn_eq_dec : EqDecision exn.
Proof. solve_decision. Defined.

(** The outcome of a call: a returned value or a raised exception. *)
Inductive outcome (A : Type) :=
  | Returns (a : A)
  | Raises (e : exn).
Arguments Returns {A} a.
Arguments Raises {A} e.

Definition succeeds {A} (o : outcome A) : Prop :=
  match o with Returns _ => True | Raises _ => False end.

(** Commands over a mutable object of type [S] (the [bytearray], the
    database connection): a command returns or raises, and hands on the
    object as it left it. *)
Definition cmd (S A : Type) : Type := S → outcome A * S.

Global Instance cmd_ret {S} : MRet (cmd S) := λ A a st, (Returns a, st).
Global Instance cmd_bind {S} : MBind (cmd S) := λ A B f m st,
  match m st with
  | (Returns a, st') => f a st'
  | (Raises e, st') => (Raises e, st')
  end.

Definition raise {S A} (e : exn) : cmd S A := λ st, (Raises e, st).
Definition lift {S A} (o : outcome A) : cmd S A := λ st, (o, st).

(** The [assert] statement. *)
Definition assert {S} (c : bool) : cmd S unit :=
  if c then mret () else raise AssertionError.

(** A [for] loop over a list. *)
Fixpoint for_each {S A} (xs : list A) (body : A → cmd S unit) : cmd S unit :=
  match xs with
  | [] => mret ()
  | x :: xs' => body x ;; for_each xs' body
  end.

(** The error taxonomy of the design document, and the exception class of
    the script each of its members stands for: the search raising "not found"
    is [FieldNotFoundError], the failed type-tag assertion is
    [TypeMismatchError].  The script has no exception of its own for a
    missing record or for an update that touches no row. *)
Inductive spec_error :=
  | FieldNotFoundError
  | TypeMismatchError
  | UpdateFailed
  | NotFoundError
  | UserCancelled.

Definition raised_as (e : exn) : option spec_error :=
  match e with
  | ValueError => Some FieldNotFoundError
  | AssertionError => Some TypeMismatchError
  | _ => None
  end.

Definition fails_with {A} (o : outcome A) (s : spec_error) : Prop :=
  match o with
  | Returns _ => False
  | Raises e => raised_as e = Some s
  end.

(** ** Bytes *)

Global Instance byte_eq_dec : EqDecision byte := Byte.byte_eq_dec.

Abbreviation bytes := (list byte).

(** A bytes literal [b"..."]. *)
Definition bytes_lit (s : string) : bytes := String.list_byte_of_string s.

Definition byte_of_Z (z : Z) : byte :=
  default x00 (Byte.of_N (Z.to_N (z mod 256))).

Definition Z_of_byte (c : byte) : Z := Z.of_N (Byte.to_N c).

(** Little-endian layout of an unsigned integer on [n] bytes, and back. *)
Fixpoint le_split (n : nat) (w : Z) : bytes :=
  match n with
  | O => []
  | S n' => byte_of_Z w :: le_split n' (w / 256)
  end.

Fixpoint le_combine (l : bytes) : Z :=
  match l with
  | [] => 0
  | c :: l' => Z_of_byte c + 256 * le_combine l'
  end.

(** ** Python sequence operations on a byte buffer *)

Local Close Scope Z_scope.

(** [body_sim.index(key)]: the lowest offset at which [key] starts, [None]
    where Python raises [ValueError]. *)
Fixpoint index (body_sim key : bytes) : option nat :=
  if bool_decide (key `prefix_of` body_sim) then Some 0
  else match body_sim with
       | [] => None
       | _ :: rest => S <$> index rest key
       end.

(** [l[start:stop]] for non-negative bounds; out-of-range bounds are clamped
    to the length, as Python does. *)
Definition getslice (l : bytes) (start stop : nat) : bytes :=
  take (stop - start) (drop start l).

(** [l[start:stop] = v] for non-negative bounds: the clamped slice is
    replaced by all of [v], whatever its length; a [stop] below [start]
    counts as [start]. *)
Definition setslice (l : bytes) (start stop : nat) (v : bytes) : bytes :=
  take start l ++ v ++ drop (start `max` stop) l.

(** [key] starts at offset [i] of [l]. *)
Definition occurs_at (key l : bytes) (i : nat) : Prop :=
  key `prefix_of` drop i l.

Definition occurs (key l : bytes) : Prop := ∃ i, occurs_at key l i.

(** ** Floating-point numbers and the [struct] formats

    A Python [float] is an IEEE 754 binary64 datum; it is modelled by its
    64-bit pattern, an integer in [[0, 2^64)], so that packing is exact on
    every datum, NaN payloads and signed zeros included.  Conversions between
    binary64 and binary32 go through [spec_float] and its rounding to
    nearest even. *)

Local Open Scope Z_scope.

Definition is_float64 (v : Z) : Prop := 0 ≤ v < 2 ^ 64.
Definition is_float32 (v : Z) : Prop := 0 ≤ v < 2 ^ 32.

Module IEEE.

(** A format is given by the widths of its fraction and exponent fields. *)
Section Format.
Variables mw ew : Z.

Definition prec := mw + 1.
Definition emax := 2 ^ (ew - 1).
Definition emin := 3 - emax - prec.

Definition sign_of (x : Z) : bool := Z.testbit x (mw + ew).
Definition expo_of (x : Z) : Z := Z.shiftr x mw mod 2 ^ ew.
Definition frac_of (x : Z) : Z := x mod 2 ^ mw.

Definition is_nan (x : Z) : bool :=
  (expo_of x =? 2 ^ ew - 1) && negb (frac_of x =? 0).

Definition decode (x : Z) : spec_float :=
  let s := sign_of x in
  let e := expo_of x in
  let m := frac_of x in
  if e =? 0 then
    match m with
    | Zpos p => S754_finite s p emin
    | _ => S754_zero s
    end
  else if e =? 2 ^ ew - 1 then
    if m =? 0 then S754_infinity s else S754_nan
  else
    match m + 2 ^ mw with
    | Zpos p => S754_finite s p (e + emin - 1)
    | _ => S754_nan
    end.

(** The three fields laid out in one word, each cut to its width. *)
Definition fields (s : bool) (e m : Z) : Z :=
  (if s then 2 ^ (mw + ew) else 0) + 2 ^ mw * (e mod 2 ^ ew) + m mod 2 ^ mw.

(** The default quiet NaN stands for [S754_nan], which has no payload;
    the conversions below treat NaNs on the bit patterns instead. *)
Definition encode (f : spec_float) : Z :=
  match f with
  | S754_zero s => fields s 0 0
  | S754_infinity s => fields s (2 ^ ew - 1) 0
  | S754_nan => fields false (2 ^ ew - 1) (2 ^ (mw - 1))
  | S754_finite s m e =>
      if Zpos m <? 2 ^ mw then fields s 0 (Zpos m)
      else fields s (e - emin + 1) (Zpos m - 2 ^ mw)
  end.
End Format.

Definition decode64 := decode 52 11.
Definition encode64 := encode 52 11.
Definition decode32 := decode 23 8.
Definition encode32 := encode 23 8.

(** The C conversion [(float)x] on a binary64 pattern, and the check
    [PyFloat_Pack4] makes after it: a finite [x] that rounds to an infinity
    is refused.  A NaN keeps its sign and the upper 23 bits of its payload
    and comes out quiet. *)
Definition to_single (x : Z) : option Z :=
  if is_nan 52 11 x then
    Some (fields 23 8 (sign_of 52 11 x) 255
            (Z.lor (2 ^ 22) (Z.shiftr (frac_of 52 x) 29)))
  else
    match decode64 x with
    | S754_finite s m e =>
        match binary_round 24 128 s m e with
        | S754_infinity _ => None
        | r => Some (encode32 r)
        end
    | f => Some (encode32 f)
    end.

(** The C conversion [(double)y] on a binary32 pattern; it is exact, and a
    NaN keeps its sign and payload and comes out quiet. *)
Definition of_single (y : Z) : Z :=
  if is_nan 23 8 y then
    fields 52 11 (sign_of 23 8 y) 2047
      (Z.lor (2 ^ 51) (Z.shiftl (frac_of 23 y) 29))
  else
    match decode32 y with
    | S754_finite s m e => encode64 (binary_round 53 1024 s m e)
    | f => encode64 f
    end.

(** [bool(x)] on a float: everything but the two zeros is true. *)
Definition truthy (x : Z) : bool := negb (x mod 2 ^ 63 =? 0).

End IEEE.

(** The three format strings of [PropertyType.struct_type]. *)
Inductive format :=
  | fmt_d   (* "<d" *)
  | fmt_f   (* "<f" *)
  | fmt_bool. (* "<?" *)

Global Instance format_eq_dec : EqDecision format.
Proof. solve_decision. Defined.

(** [struct.calcsize]. *)
Definition calcsize (st : format) : nat :=
  match st with fmt_d => 8 | fmt_f => 4 | fmt_bool => 1 end.

(** [struct.pack(struct_type, value)] on a float [value]. *)
Definition struct_pack (st : format) (value : Z) : outcome bytes :=
  match st with
  | fmt_d => Returns (le_split 8 value)
  | fmt_f =>
      match IEEE.to_single value with
      | Some y => Returns (le_split 4 y)
      | None => Raises OverflowError
      end
  | fmt_bool => Returns [if IEEE.truthy value then x01 else x00]
  end.

(** What [struct.unpack] hands back: a float or a bool. *)
Inductive pyvalue :=
  | PyFloat (bits : Z)
  | PyBool (t : bool).

(** [struct.unpack(struct_type, data)[0]]; a buffer of the wrong size is
    refused. *)
Definition struct_unpack (st : format) (data : bytes) : outcome pyvalue :=
  if bool_decide (length data = calcsize st) then
    match st with
    | fmt_d => Returns (PyFloat (le_combine data))
    | fmt_f => Returns (PyFloat (IEEE.of_single (le_combine data)))
    | fmt_bool => Returns (PyBool (negb (le_combine data =? 0)))
    end
  else Raises StructError.

(** The value a field of the given type holds once [value] is stored in it:
    the float itself, the float rounded to single precision, or its truth
    value. *)
Definition stored_value (st : format) (value : Z) : option pyvalue :=
  match st with
  | fmt_d => Some (PyFloat value)
  | fmt_f => PyFloat ∘ IEEE.of_single <$> IEEE.to_single value
  | fmt_bool => Some (PyBool (IEEE.truthy value))
  end.

Local Close Scope Z_scope.

(** ** The body-simulation patcher *)

Definition BODY_SIM_KEY_PADDING : nat := 5.
Definition BODY_SIM_VALUE_PADDING : nat := 10.

(** Property types as they occur in the body simulation blob. *)
Record PropertyType := {
  name : bytes;
  width : nat;  (* in bytes *)
  struct_type : format;
}.

Definition DoubleProperty : PropertyType :=
  {| name := bytes_lit "DoubleProperty"; width := 8; struct_type := fmt_d |}.
Definition FloatProperty : PropertyType :=
  {| name := bytes_lit "FloatProperty"; width := 4; struct_type := fmt_f |}.
Definition BoolProperty : PropertyType :=
  {| name := bytes_lit "BoolProperty"; width := 1; struct_type := fmt_bool |}.

(** The closed set of descriptors the script defines. *)
Definition supported (pt : PropertyType) : Prop :=
  pt = DoubleProperty ∨ pt = FloatProperty ∨ pt = BoolProperty.

Definition bytearray_index (key : bytes) : cmd bytes nat := λ buf,
  match index buf key with
  | Some i => (Returns i, buf)
  | None => (Raises ValueError, buf)
  end.

Definition bytearray_getslice (start stop : nat) : cmd bytes bytes := λ buf,
  (Returns (getslice buf start stop), buf).

Definition bytearray_setslice (start stop : nat) (v : bytes) : cmd bytes unit := λ buf,
  (Returns (), setslice buf start stop v).


Definition update_body_sim (key : bytes) (value : Z) (property_type : PropertyType)
  : cmd bytes unit :=
  (* Find the key in the body simulation blob *)
  key_offset ← bytearray_index key;
  (* Make sure we are using the correct property type *)
  tag ← bytearray_getslice
          (key_offset + length key + BODY_SIM_KEY_PADDING)
          (key_offset + length key + BODY_SIM_KEY_PADDING
           + length (name property_type));
  assert (bool_decide (tag = name property_type));;
  (* Calculate offset of actual value *)
  let value_offset :=
    key_offset + length key + BODY_SIM_KEY_PADDING
    + length (name property_type) + BODY_SIM_VALUE_PADDING in
  (* Convert value to bytes *)
  value_bytes ← lift (struct_pack (struct_type property_type) value);
  (* Update value in body sim blob *)
  bytearray_setslice value_offset (value_offset + width property_type) value_bytes.

(** The offsets the patcher works with, for a key found at [key_offset]. *)
Definition tag_offset (key_offset : nat) (key : bytes) : nat :=
  key_offset + length key + BODY_SIM_KEY_PADDING.

Definition value_offset_of (key_offset : nat) (key : bytes) (pt : PropertyType) : nat :=
  key_offset + length key + BODY_SIM_KEY_PADDING + length (name pt)
  + BODY_SIM_VALUE_PADDING.

(** ** The database

    A table is its
    column names and its rows, a row the list of its cells in column order.
    Columns are found by their exact name, cells are compared by storage
    class as SQLite compares values without applying a column affinity and
    under the default binary collation, and
    a statement naming a column the table does not have is refused with
    [OperationalError].  A parameter is bound before the statement runs: an
    integer outside 64 bits is refused with [OverflowError] and a NaN is
    bound as [NULL].  An open [SELECT] hands out the rows it matched when it
    was executed.  Size limits on blobs and text are not modelled. *)

Inductive sql_value :=
  | VNull
  | VInt (i : Z)
  | VReal (bits : Z)
  | VText (s : string)
  | VBlob (d : bytes).

Global Instance sql_value_eq_dec : EqDecision sql_value.
Proof. solve_decision. Defined.

(** The number a finite binary64 datum stands for equals the integer [i]. *)
Definition int_eq_real (i : Z) (bits : Z) : bool :=
  match IEEE.decode64 bits with
  | S754_zero _ => (i =? 0)%Z
  | S754_finite s m e =>
      let sm := if s then Z.neg m else Z.pos m in
      if (0 <=? e)%Z then (i =? sm * 2 ^ e)%Z else (i * 2 ^ (- e) =? sm)%Z
  | _ => false
  end.

(** The SQL comparison [x = y] being true; a [NULL] operand makes it
    [NULL], which a [WHERE] clause counts as not true. *)
Definition sql_eq (x y : sql_value) : bool :=
  match x, y with
  | VInt i, VInt j => (i =? j)%Z
  | VInt i, VReal r | VReal r, VInt i => int_eq_real i r
  | VReal r1, VReal r2 => SFeqb (IEEE.decode64 r1) (IEEE.decode64 r2)
  | VText s1, VText s2 => bool_decide (s1 = s2)
  | VBlob d1, VBlob d2 => bool_decide (d1 = d2)
  | _, _ => false
  end.

(** Binding a Python value to a [?] of a statement. *)
Definition int64 (i : Z) : bool := ((- 2 ^ 63 <=? i) && (i <? 2 ^ 63))%Z.

Definition bind (v : sql_value) : outcome sql_value :=
  match v with
  | VInt i => if int64 i then Returns v else Raises OverflowError
  | VReal x => Returns (if IEEE.is_nan 52 11 x then VNull else v)
  | _ => Returns v
  end.

Fixpoint bind_all (ps : list (string * sql_value))
  : outcome (list (string * sql_value)) :=
  match ps with
  | [] => Returns []
  | (c, v) :: ps' =>
      match bind v with
      | Raises e => Raises e
      | Returns v' =>
          match bind_all ps' with
          | Raises e => Raises e
          | Returns bound => Returns ((c, v') :: bound)
          end
      end
  end.


Abbreviation row := (list sql_value).

Record table := {
  description : list string;
  rows : list row;
}.

(** The position of column [c], and the cell of a row under it. *)
Definition col (desc : list string) (c : string) : option nat :=
  fst <$> list_find (λ x, x = c) desc.

Definition cell (desc : list string) (c : string) (r : row) : option sql_value :=
  i ← col desc c; r !! i.

Definition has_columns (desc : list string) (cs : list string) : bool :=
  forallb (λ c, bool_decide (c ∈ desc)) cs.

(** [WHERE c1 = ? AND c2 = ? ...] on one row. *)
Definition where_ (desc : list string) (conds : list (string * sql_value)) (r : row)
  : bool :=
  forallb (λ cv, match cell desc cv.1 r with
                 | Some x => sql_eq x cv.2
                 | None => false
                 end) conds.

(** [SET c1 = ?, c2 = ? ...] on one row. *)
Definition set_ (desc : list string) (sets : list (string * sql_value)) (r : row)
  : row :=
  foldl (λ r' cv, match col desc cv.1 with
                  | Some i => <[i:=cv.2]> r'
                  | None => r'
                  end) r sets.

(** What [con.execute] hands back. *)
Record cursor := {
  cur_description : list string;
  cur_rows : list row;
  rowcount : Z;
}.




(** [UPDATE t SET ... WHERE ...]: the new table and the cursor carrying the
    number of rows the statement changed. *)
Definition sql_update (t : table) (sets conds : list (string * sql_value))
  : outcome (cursor * table) :=
  if has_columns (description t) (sets.*1 ++ conds.*1) then
    match bind_all sets, bind_all conds with
    | Raises e, _ | _, Raises e => Raises e
    | Returns sets, Returns conds =>
        Returns ({| cur_description := [];
                    cur_rows := [];
                    rowcount := Z.of_nat (length (filter (λ r, where_ (description t) conds r)
                                                         (rows t))) |},
                 {| description := description t;
                    rows := (λ r, if where_ (description t) conds r
                                  then set_ (description t) sets r else r)
                            <$> rows t |})
    end
  else Raises OperationalError.

(** The connection: the two tables the script reads and writes. *)
Record connection := {
  prisoner : table;
  prisoner_skill : table;
}.



Definition execute_on_prisoner (sets conds : list (string * sql_value))
  : cmd connection cursor := λ con,
  match sql_update (prisoner con) sets conds with
  | Returns (cur, t) => (Returns cur, {| prisoner := t; prisoner_skill := prisoner_skill con |})
  | Raises e => (Raises e, con)
  end.


(** A Python dict from column names to values, and its subscript. *)
Abbreviation dict := (gmap string sql_value).

Definition getitem {S} (d : dict) (k : string) : cmd S sql_value :=
  match d !! k with
  | Some v => mret v
  | None => raise KeyError
  end.


(** ** The record accessors *)


(** Updates prisoner in database. Currently only sets body_simulation. *)
Definition save_prisoner (p : dict) : cmd connection cursor :=
  body_simulation ← getitem p "body_simulation";
  id ← getitem p "id";
  execute_on_prisoner [("body_simulation", body_simulation)] [("id", id)].

(** ** The skill updater *)

Module Config.
(** The skill overrides the script is configured with. *)
Definition SET_SKILLS : gmap string (Z * Z) :=
  list_to_map
    ((λ s, (s, (3, 10000000)%Z)) <$>
      ["BoxingSkill"; "AwarenessSkill"; "RiflesSkill"; "SnipingSkill";
       "CamouflageSkill"; "SurvivalSkill"; "MeleeWeaponsSkill"; "HandgunSkill";
       "RunningSkill"; "EnduranceSkill"; "TacticsSkill"; "CookingSkill";
       "ThieverySkill"; "ArcherySkill"; "DrivingSkill"; "EngineeringSkill";
       "DemolitionSkill"; "MedicalSkill"; "MotorcycleSkill"; "StealthSkill";
       "AviationSkill"; "ResistanceSkill"; "FarmingSkill"]).
End Config.

Section Skills.
(** The configured overrides, skill name to (level, experience). *)
Variable SET_SKILLS : gmap string (Z * Z).






End Skills.

(** ** Sample data

    The floats 1.0, 8.0 and 1e39 as binary64 patterns; the blob of the
    end-to-end scenario of the design document; the same blob cut off right
    after the type tag; and a small database. *)

Definition f64_1 : Z := 0x3FF0000000000000.
Definition f64_8 : Z := 0x4020000000000000.
Definition f64_1e39 : Z := 0x48078287F49C4A1D.

Definition pad (n : nat) : bytes := replicate n x00.

Definition BaseStrength : bytes := bytes_lit "BaseStrength".

Definition blob_whole : bytes :=
  BaseStrength ++ pad 5 ++ bytes_lit "DoubleProperty" ++ pad 10 ++ le_split 8 f64_1.

Definition blob_patched : bytes :=
  BaseStrength ++ pad 5 ++ bytes_lit "DoubleProperty" ++ pad 10 ++ le_split 8 f64_8.

Definition blob_cut : bytes :=
  BaseStrength ++ pad 5 ++ bytes_lit "DoubleProperty".

Definition blob_cut_float : bytes :=
  BaseStrength ++ pad 5 ++ bytes_lit "FloatProperty".

Definition blob_bool : bytes :=
  BaseStrength ++ pad 5 ++ bytes_lit "BoolProperty" ++ pad 10 ++ [x00].

Definition sample_prisoner : table :=
  {| description := ["id"; "user_profile_id"; "body_simulation"];
     rows := [[VInt 1; VInt 10; VBlob blob_whole];
              [VInt 2; VInt 11; VBlob blob_bool]] |}.

Definition sample_prisoner_skill : table :=
  {| description := ["prisoner_id"; "name"; "level"; "experience"];
     rows := [[VInt 1; VText "A"; VInt 0; VInt 0];
              [VInt 1; VText "B"; VInt 1; VInt 100];
              [VInt 2; VText "A"; VInt 0; VInt 0]] |}.

Definition sample_con : connection :=
  {| prisoner := sample_prisoner; prisoner_skill := sample_prisoner_skill |}.


(** ** The run of the script

    [main] from the chosen prisoner id on: what [choose_prisoner] returned is
    a parameter, and the copy of the database file to its backup path, the
    console and the final prompt are left out.  The state is the database
    file together with what the open connection sees; the two differ by the
    changes not yet committed, which are lost when the process ends. *)






(** [s.encode("ascii")]; the [UnicodeEncodeError] for a character outside
    ASCII is a [ValueError]. *)
Fixpoint is_ascii (s : string) : bool :=
  match s with
  | EmptyString => true
  | String (Ascii.Ascii _ _ _ _ _ _ _ b7) s' => negb b7 && is_ascii s'
  end.

Definition encode_ascii (s : string) : outcome bytes :=
  if is_ascii s then Returns (bytes_lit s) else Raises ValueError.


Module Attributes.
(** The attributes the script is configured with; 8.0 and 5.0 as binary64
    patterns. *)
Definition SET_ATTRIBUTES : list (string * Z) :=
  [("BaseStrength", 0x4020000000000000%Z);
   ("BaseConstitution", 0x4014000000000000%Z);
   ("BaseDexterity", 0x4014000000000000%Z);
   ("BaseIntelligence", 0x4014000000000000%Z)].
End Attributes.

Section Main.
(** The configured attributes, in the order of the dict, and the configured
    skill overrides. *)
Variable SET_ATTRIBUTES : list (string * Z).
Variable SET_SKILLS : gmap string (Z * Z).

(** The loop of [main] over the attributes. *)
Definition update_attributes : cmd bytes unit :=
  for_each SET_ATTRIBUTES (λ av,
    key ← lift (encode_ascii av.1);
    update_body_sim key av.2 DoubleProperty).

End Main.

(** ** Blobs laid out in fields

    What the patch loop of [main] relies on, said of a blob: [field_at] says
    that the first occurrence of [key] is at offset [o] and opens a double
    field that lies within the blob; [apart] says that the value window of
    one field lies outside the span of another, from its key to the end of
    its value, and that no byte of the value packed for the one occurs in
    the key of the other; [laid_out] says both of a list of attributes with
    their offsets, each one against those that come after it. *)

Definition field_at (buf key : bytes) (o : nat) : Prop :=
  index buf key = Some o
  ∧ getslice buf (tag_offset o key) (tag_offset o key + length (name DoubleProperty))
    = name DoubleProperty
  ∧ value_offset_of o key DoubleProperty + width DoubleProperty ≤ length buf.

Definition apart (key1 : bytes) (o1 : nat) (v1 : Z) (key2 : bytes) (o2 : nat) : Prop :=
  (value_offset_of o1 key1 DoubleProperty + width DoubleProperty ≤ o2
   ∨ value_offset_of o2 key2 DoubleProperty + width DoubleProperty
     ≤ value_offset_of o1 key1 DoubleProperty)
  ∧ Forall (λ c, c ∉ key2) (le_split 8 v1).

Fixpoint laid_out (buf : bytes) (fields : list (string * Z * nat)) : Prop :=
  match fields with
  | [] => True
  | (a, v, o) :: rest =>
      is_ascii a = true
      ∧ is_float64 v
      ∧ field_at buf (bytes_lit a) o
      ∧ Forall (λ f, apart (bytes_lit a) o v (bytes_lit f.1.1) f.2) rest
      ∧ laid_out buf rest
  end.

Definition sample_blob : bytes :=
  bytes_lit "BaseStrength" ++ pad 5 ++ bytes_lit "DoubleProperty" ++ pad 10
    ++ le_split 8 f64_1
  ++ bytes_lit "BaseConstitution" ++ pad 5 ++ bytes_lit "DoubleProperty" ++ pad 10
    ++ le_split 8 f64_1
  ++ bytes_lit "BaseDexterity" ++ pad 5 ++ bytes_lit "DoubleProperty" ++ pad 10
    ++ le_split 8 f64_1
  ++ bytes_lit "BaseIntelligence" ++ pad 5 ++ bytes_lit "DoubleProperty" ++ pad 10
    ++ le_split 8 f64_1.

(** The configured attributes with the offsets of their fields in
    [sample_blob]. *)
Definition sample_fields : list (string * Z * nat) :=
  [("BaseStrength", 0x4020000000000000%Z, 0);
   ("BaseConstitution", 0x4014000000000000%Z, 49);
   ("BaseDexterity", 0x4014000000000000%Z, 102);
   ("BaseIntelligence", 0x4014000000000000%Z, 152)].


(** * Properties of the patcher *)

(** ** The search *)

Lemma occurs_at_0 (key l : bytes) : occurs_at key l 0 ↔ key `prefix_of` l.
Proof. reflexivity. Qed.

Lemma occurs_at_S (key l : bytes) (c : byte) (i : nat) :
  occurs_at key (c :: l) (S i) ↔ occurs_at key l i.
Proof. reflexivity. Qed.

Lemma occurs_at_take (key l : bytes) (i : nat) :
  occurs_at key l i ↔ take (length key) (drop i l) = key.
Proof.
  unfold occurs_at. split.
  - intros [k ->]. by rewrite take_app_length.
  - intros <-. apply prefix_take.
Qed.

Lemma index_Some (l key : bytes) (i : nat) :
  index l key = Some i →
  occurs_at key l i ∧ ∀ j, j < i → ¬ occurs_at key l j.
Proof.
  revert i. induction l as [|c l IH]; intros i; simpl.
  - case_bool_decide; [|done]. intros [= <-]. split; [done|lia].
  - case_bool_decide as Hp.
    + intros [= <-]. split; [done|lia].
    + destruct (index l key) as [i'|] eqn:E; [|done].
      intros [= <-]. destruct (IH i' eq_refl) as [Ho Hmin]. split; [done|].
      intros [|j] Hj; [done|]. rewrite occurs_at_S. apply Hmin. lia.
Qed.

Lemma index_None (l key : bytes) :
  index l key = None → ¬ occurs key l.
Proof.
  induction l as [|c l IH]; simpl.
  - case_bool_decide as Hp; [done|]. intros _ [i Hi]. apply Hp.
    unfold occurs_at in Hi. by rewrite drop_nil in Hi.
  - case_bool_decide as Hp; [done|].
    destruct (index l key) eqn:E; [done|]. intros _ [[|i] Hi]; [done|].
    apply IH; [done|]. by exists i.
Qed.

Lemma index_first (l key : bytes) (i : nat) :
  occurs_at key l i → (∀ j, j < i → ¬ occurs_at key l j) → index l key = Some i.
Proof.
  intros Ho Hmin. destruct (index l key) as [i'|] eqn:E.
  - apply index_Some in E as [Ho' Hmin']. f_equal.
    destruct (Nat.lt_trichotomy i' i) as [?|[?|?]]; [|done|].
    + by destruct (Hmin i').
    + by destruct (Hmin' i).
  - apply index_None in E. destruct E. by exists i.
Qed.

Lemma index_occurs (l key : bytes) :
  occurs key l → is_Some (index l key).
Proof.
  intros Ho. destruct (index l key) eqn:E; [by eexists|].
  by apply index_None in E.
Qed.

(** ** The patcher, one step at a time *)

Lemma update_body_sim_unfold (key : bytes) (value : Z) (pt : PropertyType) (buf : bytes) :
  update_body_sim key value pt buf =
  match index buf key with
  | None => (Raises ValueError, buf)
  | Some ko =>
      if bool_decide (getslice buf (tag_offset ko key)
                        (tag_offset ko key + length (name pt)) = name pt)
      then match struct_pack (struct_type pt) value with
           | Returns bs =>
               (Returns (), setslice buf (value_offset_of ko key pt)
                              (value_offset_of ko key pt + width pt) bs)
           | Raises e => (Raises e, buf)
           end
      else (Raises AssertionError, buf)
  end.
Proof.
  unfold update_body_sim, bytearray_index, mbind, cmd_bind.
  destruct (index buf key) as [ko|]; [|done].
  unfold bytearray_getslice, tag_offset. case_bool_decide; simpl; [|done].
  unfold lift. by destruct (struct_pack _ _).
Qed.

Lemma length_le_split (n : nat) (w : Z) : length (le_split n w) = n.
Proof. revert w. induction n as [|n IH]; intros w; simpl; [done|]. by rewrite IH. Qed.

Lemma struct_pack_length (st : format) (value : Z) (bs : bytes) :
  struct_pack st value = Returns bs → length bs = calcsize st.
Proof.
  unfold struct_pack. destruct st.
  - intros [= <-]. reflexivity.
  - destruct (IEEE.to_single value); [|done]. intros [= <-]. reflexivity.
  - intros [= <-]. reflexivity.
Qed.

(** Only the conversion to single precision can make [struct.pack] fail. *)
Lemma struct_pack_succeeds (st : format) (value : Z) :
  st ≠ fmt_f → succeeds (struct_pack st value).
Proof. intros Hst. destruct st; [exact I|by destruct Hst|exact I]. Qed.

Lemma supported_width (pt : PropertyType) :
  supported pt → width pt = calcsize (struct_type pt) ∧ name pt ≠ [].
Proof. intros [-> | [-> | ->]]; by vm_compute. Qed.

Lemma length_setslice (l : bytes) (start stop : nat) (v : bytes) :
  start ≤ stop →
  length (setslice l start stop v)
  = (start `min` length l) + length v + (length l - stop).
Proof.
  intros. unfold setslice. rewrite !length_app, length_take, length_drop. lia.
Qed.

(** ** The encodings *)

Local Open Scope Z_scope.

Lemma Z_of_byte_of_Z (z : Z) : Z_of_byte (byte_of_Z z) = z mod 256.
Proof.
  unfold Z_of_byte, byte_of_Z.
  pose proof (Z.mod_pos_bound z 256 eq_refl) as Hb.
  destruct (Byte.of_N (Z.to_N (z mod 256))) as [c|] eqn:E; simpl.
  - apply Byte.to_of_N in E. rewrite E. lia.
  - apply Byte.of_N_None_iff in E. lia.
Qed.

Lemma le_combine_split (n : nat) (w : Z) :
  le_combine (le_split n w) = w mod 256 ^ Z.of_nat n.
Proof.
  revert w. induction n as [|n IH]; intros w.
  - simpl. by rewrite Z.mod_1_r.
  - cbn [le_split le_combine]. rewrite IH, Z_of_byte_of_Z.
    rewrite Nat2Z.inj_succ, Z.pow_succ_r by lia.
    rewrite Z.rem_mul_r; [done|lia|]. apply Z.pow_pos_nonneg; lia.
Qed.

Lemma le_combine_split_id (n : nat) (w : Z) :
  0 ≤ w < 256 ^ Z.of_nat n → le_combine (le_split n w) = w.
Proof. intros. rewrite le_combine_split. by apply Z.mod_small. Qed.

Lemma fields_range (mw ew : Z) (s : bool) (e m : Z) :
  0 ≤ mw → 0 ≤ ew → 0 ≤ IEEE.fields mw ew s e m < 2 ^ (mw + ew + 1).
Proof.
  intros Hm He. unfold IEEE.fields.
  rewrite !Z.pow_add_r, Z.pow_1_r by lia.
  pose proof (Z.pow_pos_nonneg 2 mw) as Pm.
  pose proof (Z.pow_pos_nonneg 2 ew) as Pe.
  pose proof (Z.mod_pos_bound e (2 ^ ew)) as Be.
  pose proof (Z.mod_pos_bound m (2 ^ mw)) as Bm.
  destruct s; nia.
Qed.

Lemma encode_range (mw ew : Z) (f : spec_float) :
  0 ≤ mw → 0 ≤ ew → 0 ≤ IEEE.encode mw ew f < 2 ^ (mw + ew + 1).
Proof.
  intros. unfold IEEE.encode.
  destruct f; try case_match; by apply fields_range.
Qed.

Lemma to_single_range (x y : Z) : IEEE.to_single x = Some y → is_float32 y.
Proof.
  assert (∀ f, is_float32 (IEEE.encode32 f)) as Henc.
  { intros f. apply (encode_range 23 8); lia. }
  unfold IEEE.to_single. destruct (IEEE.is_nan 52 11 x).
  { intros H. apply (inj Some) in H. subst y. apply (fields_range 23 8); lia. }
  destruct (IEEE.decode64 x) as [s|s| |s m e];
    try (intros H; apply (inj Some) in H; subst y; apply Henc).
  destruct (binary_round 24 128 s m e) as [s'|s'| |s' m' e'];
    try (intros H; apply (inj Some) in H; subst y; apply Henc).
  done.
Qed.

(** Unpacking what [struct.pack] laid out gives back the value the field
    holds: packing loses nothing beyond the conversion to the field's type. *)
Lemma struct_unpack_pack (st : format) (value : Z) (bs : bytes) :
  is_float64 value →
  struct_pack st value = Returns bs →
  ∃ x, struct_unpack st bs = Returns x ∧ stored_value st value = Some x.
Proof.
  intros Hv Hp. unfold struct_unpack.
  rewrite (struct_pack_length _ _ _ Hp), bool_decide_eq_true_2 by done.
  unfold struct_pack, stored_value in *. destruct st.
  - assert (bs = le_split 8 value) as -> by congruence.
    eexists; split; [|done]. by rewrite le_combine_split_id.
  - destruct (IEEE.to_single value) as [y|] eqn:E; [|done].
    assert (bs = le_split 4 y) as -> by congruence.
    eexists; split; [|done]. apply to_single_range in E.
    by rewrite le_combine_split_id.
  - assert (bs = [if IEEE.truthy value then x01 else x00]) as -> by congruence.
    eexists; split; [|done]. by destruct (IEEE.truthy value).
Qed.

Local Close Scope Z_scope.

(** ** Slices *)

Lemma occurs_at_getslice (key l : bytes) (i : nat) :
  occurs_at key l i ↔ getslice l i (i + length key) = key.
Proof.
  rewrite occurs_at_take. unfold getslice.
  by replace (i + length key - i) with (length key) by lia.
Qed.

Lemma lookup_setslice_lt (l v : bytes) (start stop i : nat) :
  i < length l → i < start → setslice l start stop v !! i = l !! i.
Proof.
  intros Hs Hi. unfold setslice.
  rewrite lookup_app_l by (rewrite length_take; lia).
  by rewrite lookup_take_lt.
Qed.

Lemma lookup_setslice_ge (l v : bytes) (start i : nat) :
  start ≤ length l → start + length v ≤ i →
  setslice l start (start + length v) v !! i = l !! i.
Proof.
  intros Hs Hi. unfold setslice.
  rewrite lookup_app_r by (rewrite length_take; lia).
  rewrite lookup_app_r by (rewrite length_take; lia).
  rewrite lookup_drop, length_take. f_equal. lia.
Qed.

Lemma getslice_setslice_window (l v : bytes) (start : nat) :
  start ≤ length l →
  getslice (setslice l start (start + length v) v) start (start + length v) = v.
Proof.
  intros Hs. unfold getslice, setslice.
  rewrite drop_app_length' by (rewrite length_take; lia).
  replace (start + length v - start) with (length v) by lia.
  by rewrite take_app_length.
Qed.

Lemma getslice_setslice_before (l v : bytes) (start' stop' start stop : nat) :
  stop ≤ start' → start' ≤ length l →
  getslice (setslice l start' stop' v) start stop = getslice l start stop.
Proof.
  intros Hle Hs. unfold getslice, setslice.
  destruct (decide (start ≤ stop)) as [?|?].
  - rewrite !take_drop_commute. f_equal.
    replace (start + (stop - start)) with stop by lia.
    rewrite take_app_le by (rewrite length_take; lia).
    rewrite take_take. f_equal. lia.
  - by replace (stop - start) with 0 by lia.
Qed.

Lemma setslice_idem (l v : bytes) (start : nat) :
  start ≤ length l →
  setslice (setslice l start (start + length v) v) start (start + length v) v
  = setslice l start (start + length v) v.
Proof.
  intros Hs. unfold setslice.
  rewrite take_app_length' by (rewrite length_take; lia). f_equal. f_equal.
  rewrite app_assoc.
  by rewrite drop_app_length' by (rewrite length_app, length_take; lia).
Qed.

(** ** What a call did *)

Lemma update_body_sim_Returns (key : bytes) (value : Z) (pt : PropertyType)
    (buf buf' : bytes) :
  update_body_sim key value pt buf = (Returns (), buf') →
  ∃ ko bs,
    index buf key = Some ko
    ∧ getslice buf (tag_offset ko key) (tag_offset ko key + length (name pt)) = name pt
    ∧ struct_pack (struct_type pt) value = Returns bs
    ∧ buf' = setslice buf (value_offset_of ko key pt)
               (value_offset_of ko key pt + width pt) bs.
Proof.
  rewrite update_body_sim_unfold.
  destruct (index buf key) as [ko|]; [|done].
  case_bool_decide as Htag; [|done].
  destruct (struct_pack _ _) as [bs|] eqn:Hp; [|done].
  intros [= <-]. by exists ko, bs.
Qed.

Lemma update_body_sim_Raises (key : bytes) (value : Z) (pt : PropertyType)
    (buf buf' : bytes) (e : exn) :
  update_body_sim key value pt buf = (Raises e, buf') → buf' = buf.
Proof.
  rewrite update_body_sim_unfold.
  destruct (index buf key) as [ko|]; [|congruence].
  case_bool_decide; [|congruence].
  destruct (struct_pack _ _); [done|congruence].
Qed.

(** * The claims about the patcher *)

(** C5. When the key bytes occur nowhere in the buffer, [update_body_sim]
    raises the [ValueError] of the search, which is the design document's
    [FieldNotFoundError], and the buffer is left as it was. *)
Theorem update_body_sim_key_absent (key : bytes) (value : Z) (pt : PropertyType)
    (buf : bytes) :
  ¬ occurs key buf →
  update_body_sim key value pt buf = (Raises ValueError, buf)
  ∧ fails_with (update_body_sim key value pt buf).1 FieldNotFoundError.
Proof.
  intros Hno. rewrite update_body_sim_unfold.
  destruct (index buf key) as [ko|] eqn:E; [|done].
  destruct Hno. exists ko. by apply index_Some in E as [? _].
Qed.

Lemma update_body_sim_key_absent_witness :
  ¬ occurs (bytes_lit "BaseDexterity") blob_whole
  ∧ update_body_sim (bytes_lit "BaseDexterity") f64_8 DoubleProperty blob_whole
    = (Raises ValueError, blob_whole).
Proof.
  assert (¬ occurs (bytes_lit "BaseDexterity") blob_whole) as Hno.
  { apply index_None. by vm_compute. }
  split; [exact Hno|].
  exact (proj1 (update_body_sim_key_absent _ f64_8 DoubleProperty _ Hno)).
Defined.

(** C4. When the key occurs, first at offset [ko], and the bytes at
    [ko + len(key) + 5], for the length of the type's name, are not the
    requested type's name, [update_body_sim] raises the [AssertionError] of
    its type check, which is the design document's [TypeMismatchError], and
    the buffer is left as it was. *)
Theorem update_body_sim_type_mismatch (key : bytes) (value : Z) (pt : PropertyType)
    (buf : bytes) (ko : nat) :
  occurs_at key buf ko →
  (∀ j, j < ko → ¬ occurs_at key buf j) →
  getslice buf (ko + length key + BODY_SIM_KEY_PADDING)
    (ko + length key + BODY_SIM_KEY_PADDING + length (name pt)) ≠ name pt →
  update_body_sim key value pt buf = (Raises AssertionError, buf)
  ∧ fails_with (update_body_sim key value pt buf).1 TypeMismatchError.
Proof.
  intros Ho Hmin Htag. rewrite update_body_sim_unfold.
  rewrite (index_first _ _ _ Ho Hmin). unfold tag_offset.
  by rewrite bool_decide_eq_false_2.
Qed.

Lemma update_body_sim_type_mismatch_witness :
  update_body_sim BaseStrength f64_8 FloatProperty blob_whole
  = (Raises AssertionError, blob_whole).
Proof.
  refine (proj1 (update_body_sim_type_mismatch BaseStrength f64_8 FloatProperty
                   blob_whole 0 _ _ _)).
  - apply occurs_at_take. by vm_compute.
  - intros j Hj. lia.
  - by vm_compute.
Defined.




(** C10, as the code has it.  When the key is found, the type tag matches
    and the value window runs past the end of the buffer, the call does not
    fail for being out of bounds: provided [struct.pack] accepts the value,
    it returns, the bytes from [value_offset] to the end are replaced by the
    packed value, and the buffer grows to
    [min(value_offset, len(buffer)) + width] bytes. *)
Theorem update_body_sim_grows (key : bytes) (value : Z) (pt : PropertyType)
    (buf : bytes) (ko : nat) :
  supported pt →
  index buf key = Some ko →
  getslice buf (ko + length key + BODY_SIM_KEY_PADDING)
    (ko + length key + BODY_SIM_KEY_PADDING + length (name pt)) = name pt →
  length buf < value_offset_of ko key pt + width pt →
  succeeds (struct_pack (struct_type pt) value) →
  ∃ bs,
    struct_pack (struct_type pt) value = Returns bs
    ∧ update_body_sim key value pt buf
      = (Returns (), take (value_offset_of ko key pt) buf ++ bs)
    ∧ length (take (value_offset_of ko key pt) buf ++ bs)
      = value_offset_of ko key pt `min` length buf + width pt
    ∧ length buf < length (take (value_offset_of ko key pt) buf ++ bs).
Proof.
  intros Hsup Hi Htag Hpast Hpack.
  destruct (struct_pack (struct_type pt) value) as [bs|] eqn:Hp; [|done].
  exists bs. rewrite update_body_sim_unfold, Hi. unfold tag_offset.
  rewrite bool_decide_eq_true_2, Hp by done.
  apply struct_pack_length in Hp. destruct (supported_width pt Hsup) as [Hw _].
  unfold setslice. rewrite drop_ge, app_nil_r by lia.
  rewrite length_app, length_take.
  assert (0 < calcsize (struct_type pt)) by (destruct (struct_type pt); simpl; lia).
  split; [done|]. split; [done|]. split; lia.
Qed.

Lemma update_body_sim_grows_witness :
  update_body_sim BaseStrength f64_8 DoubleProperty blob_cut
  = (Returns (), take 41 blob_cut ++ le_split 8 f64_8)
  ∧ length (take 41 blob_cut ++ le_split 8 f64_8) = 39.
Proof.
  destruct (update_body_sim_grows BaseStrength f64_8 DoubleProperty blob_cut 0)
    as (bs & Hp & Hrun & Hlen & _).
  - by left.
  - by vm_compute.
  - by vm_compute.
  - vm_compute. lia.
  - exact I.
  - injection Hp as <-. split; [exact Hrun|exact Hlen].
Defined.

(** C10 as stated fails: on a cut-off blob tagged [FloatProperty], the float
    1e39 makes [struct.pack] raise [OverflowError] and the call fails. *)
Lemma update_body_sim_overflow :
  index blob_cut_float BaseStrength = Some 0
  ∧ getslice blob_cut_float (0 + 12 + 5) (0 + 12 + 5 + 13) = name FloatProperty
  ∧ length blob_cut_float < value_offset_of 0 BaseStrength FloatProperty + 4
  ∧ update_body_sim BaseStrength f64_1e39 FloatProperty blob_cut_float
    = (Raises OverflowError, blob_cut_float).
Proof. vm_compute. repeat split; lia. Qed.

(** C3, as the code has it.  After a successful call every byte the buffer
    held outside the value window is as it was; and when the value offset
    lies within the buffer, every position outside the value window, before
    or past the old end, holds what it held before the call. *)
Theorem update_body_sim_frame (key : bytes) (value : Z) (pt : PropertyType)
    (buf buf' : bytes) (ko i : nat) :
  supported pt →
  update_body_sim key value pt buf = (Returns (), buf') →
  index buf key = Some ko →
  ¬ (value_offset_of ko key pt ≤ i < value_offset_of ko key pt + width pt) →
  i < length buf ∨ value_offset_of ko key pt ≤ length buf →
  buf' !! i = buf !! i.
Proof.
  intros Hsup Hrun Hi Hout Hin.
  destruct (update_body_sim_Returns _ _ _ _ _ Hrun) as (ko' & bs & Hi' & _ & Hp & ->).
  assert (ko' = ko) as -> by congruence.
  apply struct_pack_length in Hp. destruct (supported_width pt Hsup) as [Hw _].
  rewrite Hw, <- Hp in *.
  destruct (decide (i < value_offset_of ko key pt)) as [Hlt|Hge].
  - destruct (decide (i < length buf)); [by apply lookup_setslice_lt|].
    unfold setslice. rewrite lookup_app_l by (rewrite length_take; lia).
    by rewrite lookup_take_lt.
  - apply lookup_setslice_ge; lia.
Qed.

Lemma update_body_sim_frame_witness :
  blob_patched !! 3 = blob_whole !! 3.
Proof.
  refine (update_body_sim_frame BaseStrength f64_8 DoubleProperty
            blob_whole blob_patched 0 3 _ _ _ _ _).
  - by left.
  - by vm_compute.
  - by vm_compute.
  - vm_compute. lia.
  - left. vm_compute. lia.
Defined.

(** C3 as stated fails: on the cut-off blob the packed value is appended at
    offset 31, outside the computed window [[41, 49)], where the buffer held
    nothing before. *)
Lemma update_body_sim_writes_outside_window :
  update_body_sim BaseStrength f64_8 DoubleProperty blob_cut
  = (Returns (), blob_cut ++ le_split 8 f64_8)
  ∧ value_offset_of 0 BaseStrength DoubleProperty = 41
  ∧ ¬ (41 ≤ 31 < 41 + 8)
  ∧ blob_cut !! 31 = None
  ∧ (blob_cut ++ le_split 8 f64_8) !! 31 = Some x00.
Proof. vm_compute. repeat split. lia. Qed.

(** C1, as the code has it.  After a successful call whose value offset
    lies within the buffer, the offset [ko] the search returned is the lowest
    one at which the key bytes occur, and unpacking the [width] bytes at
    [ko + len(key) + 5 + len(type name) + 10] with the type's format gives
    exactly the value the field holds: the float itself for a double, the
    float rounded to single precision for a float, its truth value for a
    boolean. *)
Theorem update_body_sim_roundtrip (key : bytes) (value : Z) (pt : PropertyType)
    (buf buf' : bytes) (ko : nat) :
  supported pt →
  is_float64 value →
  update_body_sim key value pt buf = (Returns (), buf') →
  index buf key = Some ko →
  value_offset_of ko key pt ≤ length buf →
  occurs_at key buf ko
  ∧ (∀ j, occurs_at key buf j → ko ≤ j)
  ∧ ∃ x,
      struct_unpack (struct_type pt)
        (getslice buf'
           (ko + length key + 5 + length (name pt) + 10)
           (ko + length key + 5 + length (name pt) + 10 + width pt))
      = Returns x
      ∧ stored_value (struct_type pt) value = Some x.
Proof.
  intros Hsup Hv Hrun Hi Hin.
  destruct (index_Some _ _ _ Hi) as [Ho Hmin].
  split; [done|]. split.
  { intros j Hj. destruct (decide (ko ≤ j)); [done|]. destruct (Hmin j); [lia|done]. }
  destruct (update_body_sim_Returns _ _ _ _ _ Hrun) as (ko' & bs & Hi' & _ & Hp & ->).
  assert (ko' = ko) as -> by congruence.
  destruct (struct_unpack_pack _ _ _ Hv Hp) as (x & Hx & Hst).
  exists x. split; [|done].
  change (ko + length key + 5 + length (name pt) + 10)
    with (value_offset_of ko key pt).
  destruct (supported_width pt Hsup) as [Hw _].
  rewrite Hw, <- (struct_pack_length _ _ _ Hp).
  by rewrite getslice_setslice_window.
Qed.

Lemma update_body_sim_roundtrip_witness :
  update_body_sim BaseStrength f64_8 DoubleProperty blob_whole
  = (Returns (), blob_patched)
  ∧ struct_unpack fmt_d (getslice blob_patched 41 49) = Returns (PyFloat f64_8).
Proof.
  assert (update_body_sim BaseStrength f64_8 DoubleProperty blob_whole
          = (Returns (), blob_patched)) as Hrun by (by vm_compute).
  split; [exact Hrun|].
  destruct (update_body_sim_roundtrip BaseStrength f64_8 DoubleProperty
              blob_whole blob_patched 0) as (_ & _ & x & Hx & Hst).
  - by left.
  - by vm_compute.
  - exact Hrun.
  - by vm_compute.
  - vm_compute. lia.
  - injection Hst as <-. exact Hx.
Defined.

(** C1 as stated fails: on the cut-off blob the call succeeds, but the packed
    value lands at offset 31 and nothing can be unpacked from the computed
    window [[41, 49)]. *)
Lemma update_body_sim_roundtrip_fails :
  update_body_sim BaseStrength f64_8 DoubleProperty blob_cut
  = (Returns (), blob_cut ++ le_split 8 f64_8)
  ∧ index blob_cut BaseStrength = Some 0
  ∧ getslice (blob_cut ++ le_split 8 f64_8)
      (0 + 12 + 5 + 14 + 10) (0 + 12 + 5 + 14 + 10 + 8) = []
  ∧ struct_unpack fmt_d
      (getslice (blob_cut ++ le_split 8 f64_8)
         (0 + 12 + 5 + 14 + 10) (0 + 12 + 5 + 14 + 10 + 8))
    = Raises StructError.
Proof. by vm_compute. Qed.

(** C9, as the code has it.  When a call succeeds and its value offset lies
    within the buffer, the same call on the patched buffer succeeds again and
    leaves that buffer as it is. *)
Theorem update_body_sim_idempotent (key : bytes) (value : Z) (pt : PropertyType)
    (buf buf' : bytes) (ko : nat) :
  supported pt →
  update_body_sim key value pt buf = (Returns (), buf') →
  index buf key = Some ko →
  value_offset_of ko key pt ≤ length buf →
  update_body_sim key value pt buf' = (Returns (), buf').
Proof.
  intros Hsup Hrun Hi Hin.
  destruct (update_body_sim_Returns _ _ _ _ _ Hrun) as (ko' & bs & Hi' & Htag & Hp & ->).
  assert (ko' = ko) as -> by congruence.
  destruct (index_Some _ _ _ Hi) as [Ho Hmin].
  set (vo := value_offset_of ko key pt) in *.
  assert (∀ j, j ≤ ko →
            occurs_at key (setslice buf vo (vo + width pt) bs) j ↔ occurs_at key buf j)
    as Hsame.
  { intros j Hj. rewrite !occurs_at_getslice.
    rewrite getslice_setslice_before; [done| |done].
    unfold vo, value_offset_of. lia. }
  rewrite update_body_sim_unfold.
  rewrite (index_first _ _ ko).
  - rewrite getslice_setslice_before; [|unfold vo, value_offset_of, tag_offset; lia|done].
    rewrite bool_decide_eq_true_2, Hp by done.
    f_equal. fold vo.
    destruct (supported_width pt Hsup) as [Hw _].
    rewrite Hw, <- (struct_pack_length _ _ _ Hp).
    by apply setslice_idem.
  - by apply Hsame.
  - intros j Hj. rewrite Hsame by lia. by apply Hmin.
Qed.

Lemma update_body_sim_idempotent_witness :
  update_body_sim BaseStrength f64_8 DoubleProperty blob_patched
  = (Returns (), blob_patched).
Proof.
  refine (update_body_sim_idempotent BaseStrength f64_8 DoubleProperty
            blob_whole blob_patched 0 _ _ _ _).
  - by left.
  - by vm_compute.
  - by vm_compute.
  - vm_compute. lia.
Defined.

(** C9 as stated fails: on the cut-off blob the first call appends the packed
    value and the second call appends it once more. *)
Lemma update_body_sim_not_idempotent :
  update_body_sim BaseStrength f64_8 DoubleProperty blob_cut
  = (Returns (), blob_cut ++ le_split 8 f64_8)
  ∧ update_body_sim BaseStrength f64_8 DoubleProperty (blob_cut ++ le_split 8 f64_8)
    = (Returns (), blob_cut ++ le_split 8 f64_8 ++ le_split 8 f64_8)
  ∧ blob_cut ++ le_split 8 f64_8 ++ le_split 8 f64_8 ≠ blob_cut ++ le_split 8 f64_8.
Proof. by vm_compute. Qed.

(** * Properties of the database layer *)

Local Arguments where_ : simpl never.
Local Arguments set_ : simpl never.

Lemma col_Some (desc : list string) (c : string) (i : nat) :
  col desc c = Some i → desc !! i = Some c.
Proof.
  unfold col. destruct (list_find _ desc) as [[j x]|] eqn:E; [|done].
  intros [= <-]. apply list_find_Some in E as (? & -> & _). done.
Qed.


Lemma col_ne (desc : list string) (c c' : string) (i j : nat) :
  c ≠ c' → col desc c = Some i → col desc c' = Some j → i ≠ j.
Proof.
  intros Hne Hi Hj ->. apply col_Some in Hi, Hj. congruence.
Qed.


Lemma cell_insert_ne (desc : list string) (c c' : string) (j : nat)
    (v : sql_value) (r : row) :
  c ≠ c' → col desc c' = Some j → cell desc c (<[j:=v]> r) = cell desc c r.
Proof.
  intros Hne Hj. unfold cell.
  destruct (col desc c) as [i|] eqn:Hi; [|done]. simpl.
  apply list_lookup_insert_ne. intros ->. by eapply col_ne.
Qed.








(** * The claims about the record accessors *)







(** ** Rows under [SET] and [WHERE] *)

Lemma cell_set_other (desc : list string) (sets : list (string * sql_value))
    (c : string) (r : row) :
  c ∉ sets.*1 → cell desc c (set_ desc sets r) = cell desc c r.
Proof.
  unfold set_. revert r. induction sets as [|[c' v] sets IH]; intros r Hc; [done|].
  simpl in *. apply not_elem_of_cons in Hc as [Hne Hc].
  rewrite IH by done. destruct (col desc c') as [j|] eqn:Hj; [|done].
  by eapply cell_insert_ne.
Qed.

Lemma where_set_other (desc : list string) (sets conds : list (string * sql_value))
    (r : row) :
  (∀ c, c ∈ conds.*1 → c ∉ sets.*1) →
  where_ desc conds (set_ desc sets r) = where_ desc conds r.
Proof.
  unfold where_. induction conds as [|[c v] conds IH]; intros Hd; [done|].
  simpl. rewrite cell_set_other by (apply Hd; simpl; left).
  rewrite IH; [done|]. intros c' Hc'. apply Hd. simpl. by right.
Qed.





(** ** The loop of the skill updater *)

Section SkillsProofs.
Variable SET_SKILLS : gmap string (Z * Z).
Variable desc : list string.
Variable id : sql_value.




End SkillsProofs.


(** The overrides the script is configured with are within 64 bits. *)
Lemma configured_skills_in_range (s : string) (l e : Z) :
  Config.SET_SKILLS !! s = Some (l, e) → int64 l = true ∧ int64 e = true.
Proof.
  intros Hs.
  assert (map_Forall (λ _ le, int64 le.1 = true ∧ int64 le.2 = true) Config.SET_SKILLS)
    as Hall by (apply (bool_decide_unpack _); by vm_compute).
  exact (Hall s (l, e) Hs).
Qed.

(** * The claim about the skill updater *)



(** * Further properties of the patcher *)

(** X1. A call that raises, whatever the exception, leaves the buffer byte
    for byte as it was: the only write is the last statement. *)
Theorem update_body_sim_failure_keeps_buffer (key : bytes) (value : Z)
    (pt : PropertyType) (buf buf' : bytes) (o : outcome unit) :
  update_body_sim key value pt buf = (o, buf') →
  ¬ succeeds o →
  buf' = buf.
Proof.
  intros Hrun Hfail. destruct o as [[]|e]; [by destruct Hfail|].
  by eapply update_body_sim_Raises.
Qed.

Lemma update_body_sim_failure_keeps_buffer_witness :
  (update_body_sim BaseStrength f64_1e39 FloatProperty blob_cut_float).2
  = blob_cut_float.
Proof.
  eapply (update_body_sim_failure_keeps_buffer BaseStrength f64_1e39 FloatProperty
            blob_cut_float _ (Raises OverflowError)).
  - by vm_compute.
  - intros [].
Defined.

Lemma setslice_app (pre old post v : bytes) :
  setslice (pre ++ old ++ post) (length pre) (length pre + length old) v
  = pre ++ v ++ post.
Proof.
  unfold setslice. rewrite take_app_length. f_equal. f_equal.
  replace (length pre `max` (length pre + length old))
    with (length pre + length old) by lia.
  rewrite app_assoc. by rewrite drop_app_length' by (rewrite length_app; lia).
Qed.

Lemma getslice_app (pre mid post : bytes) :
  getslice (pre ++ mid ++ post) (length pre) (length pre + length mid) = mid.
Proof.
  unfold getslice. rewrite drop_app_length.
  replace (length pre + length mid - length pre) with (length mid) by lia.
  by rewrite take_app_length.
Qed.

(** X2. On a blob where the first occurrence of the key opens a field laid
    out as key, five bytes, type name, ten bytes, value, the call returns
    and the blob is the same but for the value, which is replaced by the
    packed one; the bytes of the two gaps are never looked at. *)
Theorem update_body_sim_field (pre key gap1 gap2 old post : bytes) (value : Z)
    (pt : PropertyType) (bs : bytes) :
  length gap1 = BODY_SIM_KEY_PADDING →
  length gap2 = BODY_SIM_VALUE_PADDING →
  length old = width pt →
  index (pre ++ key ++ gap1 ++ name pt ++ gap2 ++ old ++ post) key
  = Some (length pre) →
  struct_pack (struct_type pt) value = Returns bs →
  update_body_sim key value pt (pre ++ key ++ gap1 ++ name pt ++ gap2 ++ old ++ post)
  = (Returns (), pre ++ key ++ gap1 ++ name pt ++ gap2 ++ bs ++ post).
Proof.
  intros Hg1 Hg2 Hold Hi Hp. rewrite update_body_sim_unfold, Hi, Hp.
  assert (tag_offset (length pre) key = length (pre ++ key ++ gap1)) as ->.
  { unfold tag_offset. rewrite !length_app. lia. }
  assert (value_offset_of (length pre) key pt
          = length (pre ++ key ++ gap1 ++ name pt ++ gap2)) as ->.
  { unfold value_offset_of. rewrite !length_app. lia. }
  rewrite <- Hold.
  assert (getslice (pre ++ key ++ gap1 ++ name pt ++ gap2 ++ old ++ post)
            (length (pre ++ key ++ gap1))
            (length (pre ++ key ++ gap1) + length (name pt)) = name pt) as ->.
  { replace (pre ++ key ++ gap1 ++ name pt ++ gap2 ++ old ++ post)
      with ((pre ++ key ++ gap1) ++ name pt ++ gap2 ++ old ++ post)
      by (by rewrite <- !app_assoc).
    apply getslice_app. }
  rewrite bool_decide_eq_true_2 by done. f_equal.
  replace (pre ++ key ++ gap1 ++ name pt ++ gap2 ++ old ++ post)
    with ((pre ++ key ++ gap1 ++ name pt ++ gap2) ++ old ++ post)
    by (by rewrite <- !app_assoc).
  rewrite setslice_app. by rewrite <- !app_assoc.
Qed.

Lemma update_body_sim_field_witness :
  update_body_sim BaseStrength f64_8 DoubleProperty blob_whole
  = (Returns (), blob_patched).
Proof.
  exact (update_body_sim_field [] BaseStrength (pad 5) (pad 10) (le_split 8 f64_1) []
           f64_8 DoubleProperty (le_split 8 f64_8)
           eq_refl eq_refl eq_refl eq_refl eq_refl).
Defined.

Lemma index_setslice (buf key v : bytes) (ko start stop : nat) :
  index buf key = Some ko →
  ko + length key ≤ start → start ≤ length buf →
  index (setslice buf start stop v) key = Some ko.
Proof.
  intros Hi Hle Hs. destruct (index_Some _ _ _ Hi) as [Ho Hmin].
  assert (∀ j, j ≤ ko →
            occurs_at key (setslice buf start stop v) j ↔ occurs_at key buf j)
    as Hsame.
  { intros j Hj. rewrite !occurs_at_getslice.
    rewrite getslice_setslice_before; [done|lia|done]. }
  apply index_first; [by apply Hsame|].
  intros j Hj. rewrite Hsame by lia. by apply Hmin.
Qed.

Lemma setslice_overwrite (l v1 v2 : bytes) (start : nat) :
  start ≤ length l →
  setslice (setslice l start (start + length v1) v1) start (start + length v1) v2
  = setslice l start (start + length v1) v2.
Proof.
  intros Hs. unfold setslice.
  rewrite take_app_length' by (rewrite length_take; lia). f_equal. f_equal.
  rewrite app_assoc.
  by rewrite drop_app_length' by (rewrite length_app, length_take; lia).
Qed.

(** X3. The last write wins: once a call has succeeded with its value
    offset within the buffer, a further call for the same key and type with
    any value [struct.pack] accepts gives the very buffer it would have
    given without the first call. *)
Theorem update_body_sim_overwrite (key : bytes) (v1 v2 : Z) (pt : PropertyType)
    (buf buf1 : bytes) (ko : nat) :
  supported pt →
  update_body_sim key v1 pt buf = (Returns (), buf1) →
  index buf key = Some ko →
  value_offset_of ko key pt ≤ length buf →
  succeeds (struct_pack (struct_type pt) v2) →
  succeeds (update_body_sim key v2 pt buf).1
  ∧ update_body_sim key v2 pt buf1 = update_body_sim key v2 pt buf.
Proof.
  intros Hsup Hrun Hi Hin Hpack.
  destruct (update_body_sim_Returns _ _ _ _ _ Hrun) as (ko' & bs & Hi' & Htag & Hp & ->).
  assert (ko' = ko) as -> by congruence.
  destruct (struct_pack (struct_type pt) v2) as [bs2|] eqn:Hp2; [|done].
  rewrite !update_body_sim_unfold, Hi.
  rewrite (index_setslice _ _ _ ko); [|done|unfold value_offset_of; lia|done].
  rewrite getslice_setslice_before;
    [|unfold value_offset_of, tag_offset; lia|done].
  rewrite Htag, bool_decide_eq_true_2, Hp2 by done.
  split; [done|]. f_equal.
  destruct (supported_width pt Hsup) as [Hw _].
  rewrite Hw, <- (struct_pack_length _ _ _ Hp).
  by apply setslice_overwrite.
Qed.

Lemma update_body_sim_overwrite_witness :
  update_body_sim BaseStrength f64_8 DoubleProperty
    (update_body_sim BaseStrength f64_1e39 DoubleProperty blob_whole).2
  = update_body_sim BaseStrength f64_8 DoubleProperty blob_whole.
Proof.
  refine (proj2 (update_body_sim_overwrite BaseStrength f64_1e39 f64_8 DoubleProperty
                   blob_whole _ 0 _ _ _ _ _)).
  - by left.
  - by vm_compute.
  - by vm_compute.
  - vm_compute. lia.
  - exact I.
Defined.

(** X4. A successful call never shortens the buffer, and it keeps the
    length exactly when the value window lies within the buffer. *)
Theorem update_body_sim_length_iff (key : bytes) (value : Z) (pt : PropertyType)
    (buf buf' : bytes) (ko : nat) :
  supported pt →
  update_body_sim key value pt buf = (Returns (), buf') →
  index buf key = Some ko →
  length buf ≤ length buf'
  ∧ (length buf' = length buf
     ↔ value_offset_of ko key pt + width pt ≤ length buf).
Proof.
  intros Hsup Hrun Hi.
  destruct (update_body_sim_Returns _ _ _ _ _ Hrun) as (ko' & bs & Hi' & _ & Hp & ->).
  assert (ko' = ko) as -> by congruence.
  apply struct_pack_length in Hp. destruct (supported_width pt Hsup) as [Hw _].
  assert (0 < calcsize (struct_type pt)) by (destruct (struct_type pt); simpl; lia).
  rewrite length_setslice by lia. lia.
Qed.

Lemma update_body_sim_length_iff_witness :
  length blob_cut ≤ length (blob_cut ++ le_split 8 f64_8)
  ∧ (length (blob_cut ++ le_split 8 f64_8) = length blob_cut
     ↔ value_offset_of 0 BaseStrength DoubleProperty + 8 ≤ length blob_cut).
Proof.
  refine (update_body_sim_length_iff BaseStrength f64_8 DoubleProperty
            blob_cut (blob_cut ++ le_split 8 f64_8) 0 _ _ _).
  - by left.
  - by vm_compute.
  - by vm_compute.
Defined.

(** * Further properties of the record accessors *)

Lemma filter_fmap_same (hit : row → bool) (f : row → row) (l : list row) :
  (∀ r, hit (f r) = hit r) →
  filter (λ r, hit r) (f <$> l) = f <$> filter (λ r, hit r) l.
Proof.
  intros Hf. induction l as [|r l IH]; [done|].
  rewrite fmap_cons, !filter_cons, Hf, IH. by destruct (hit r).
Qed.





Lemma where_id_set_body (desc : list string) (id body : sql_value) (r : row) :
  where_ desc [("id", id)] (set_ desc [("body_simulation", body)] r)
  = where_ desc [("id", id)] r.
Proof.
  apply where_set_other. intros c Hc. simpl in *.
  apply list_elem_of_singleton in Hc as ->. intros H.
  by apply list_elem_of_singleton in H.
Qed.

(** X5. A record that lacks [body_simulation] or [id] makes [save_prisoner]
    raise [KeyError] before any statement is run; the database is as
    before. *)
Theorem save_prisoner_missing_key (con : connection) (p : dict) :
  p !! "body_simulation" = None ∨ p !! "id" = None →
  save_prisoner p con = (Raises KeyError, con).
Proof.
  intros Hmiss. unfold save_prisoner, mbind, cmd_bind, getitem.
  destruct (p !! "body_simulation") as [body|]; [|done].
  destruct Hmiss as [Hm|Hm]; [done|]. by rewrite Hm.
Qed.

Lemma save_prisoner_missing_key_witness :
  save_prisoner {[ "body_simulation" := VBlob blob_whole ]} sample_con
  = (Raises KeyError, sample_con).
Proof.
  apply save_prisoner_missing_key. right. by vm_compute.
Defined.





Lemma save_prisoner_Returns (con con' : connection) (p : dict) (cur : cursor) :
  save_prisoner p con = (Returns cur, con') →
  let desc := description (prisoner con) in
  ∃ body id,
    has_columns desc ["body_simulation"; "id"] = true
    ∧ (∃ b i, p !! "body_simulation" = Some b ∧ p !! "id" = Some i
              ∧ bind_all [("body_simulation", b)] = Returns [("body_simulation", body)]
              ∧ bind_all [("id", i)] = Returns [("id", id)])
    ∧ rowcount cur
      = Z.of_nat (length (filter (λ r, where_ desc [("id", id)] r) (rows (prisoner con))))
    ∧ con' = {| prisoner :=
                  {| description := desc;
                     rows := (λ r, if where_ desc [("id", id)] r
                                   then set_ desc [("body_simulation", body)] r else r)
                             <$> rows (prisoner con) |};
                prisoner_skill := prisoner_skill con |}.
Proof.
  intros Hrun desc. revert Hrun.
  unfold save_prisoner, mbind, cmd_bind, getitem.
  destruct (p !! "body_simulation") as [b|] eqn:Hb; [|done].
  destruct (p !! "id") as [i|] eqn:Hi; [|done]. cbn [mret cmd_ret].
  unfold execute_on_prisoner, sql_update. cbn [fmap list_fmap fst app].
  fold desc. destruct (has_columns desc _) eqn:Hcols; [|done].
  cbn [bind_all].
  destruct (bind b) as [body|] eqn:Hbb; [|done].
  destruct (bind i) as [id|] eqn:Hbi; [|done].
  intros [= <- <-]. exists body, id. split; [done|]. split; [|done].
  exists b, i. by rewrite Hbb, Hbi.
Qed.

(** X8. Saving twice is saving once: when [save_prisoner] has returned, the
    same call on the database it left returns the same row count and leaves
    that database as it is. *)
Theorem save_prisoner_idempotent (con con' : connection) (p : dict) (cur : cursor) :
  save_prisoner p con = (Returns cur, con') →
  ∃ cur', save_prisoner p con' = (Returns cur', con')
          ∧ rowcount cur' = rowcount cur.
Proof.
  intros Hrun.
  destruct (save_prisoner_Returns _ _ _ _ Hrun)
    as (body & id & Hcols & (b & i & Hb & Hi & Hbb & Hbi) & Hcount & ->).
  set (desc := description (prisoner con)) in *.
  unfold save_prisoner, mbind, cmd_bind, getitem. rewrite Hb, Hi.
  cbn [mret cmd_ret]. unfold execute_on_prisoner, sql_update.
  cbn [prisoner prisoner_skill description rows].
  cbn [fmap list_fmap fst app] in *. fold desc. rewrite Hcols, Hbb, Hbi.
  rewrite (filter_fmap_same (where_ desc [("id", id)])).
  2:{ intros r. destruct (where_ desc [("id", id)] r) eqn:Hr; [|done].
      by rewrite where_id_set_body. }
  eexists. split.
  - f_equal. f_equal. f_equal. rewrite <- list_fmap_compose.
    apply list_fmap_ext. intros _ r _. cbn [compose].
    destruct (where_ desc [("id", id)] r) eqn:Hr; [|by rewrite Hr].
    rewrite where_id_set_body, Hr. unfold set_. simpl.
    destruct (col desc "body_simulation"); [|done].
    apply list_insert_insert_eq.
  - cbn [rowcount]. by rewrite Hcount, length_fmap.
Qed.

Lemma save_prisoner_idempotent_witness :
  ∃ cur con' cur',
    save_prisoner {[ "id" := VInt 2; "body_simulation" := VBlob blob_whole ]} sample_con
    = (Returns cur, con')
    ∧ save_prisoner {[ "id" := VInt 2; "body_simulation" := VBlob blob_whole ]} con'
      = (Returns cur', con')
    ∧ rowcount cur' = rowcount cur.
Proof.
  eexists _, _.
  assert (∀ (A B : Prop), A → (A → B) → A ∧ B) as Hand by tauto.
  assert (∀ (T : Type) (P Q : T → Prop) (R : Prop),
            R → (R → ∃ x, P x ∧ Q x) → ∃ x, R ∧ P x ∧ Q x) as Hex.
  { intros T P Q R HR H. destruct (H HR) as (x & ? & ?). by exists x. }
  apply Hex.
  - by vm_compute.
  - intros Hrun. exact (save_prisoner_idempotent _ _ _ _ Hrun).
Defined.

(** * Further properties of the skill updater *)







(** * Properties of the run of the script *)










(** * The patch loop on a blob laid out in fields *)

Lemma lookup_setslice_in (l v : bytes) (start q : nat) :
  start ≤ length l → start ≤ q < start + length v →
  setslice l start (start + length v) v !! q = v !! (q - start).
Proof.
  intros Hs Hq. unfold setslice.
  rewrite lookup_app_r by (rewrite length_take; lia).
  rewrite length_take. replace (start `min` length l) with start by lia.
  apply lookup_app_l. lia.
Qed.

Lemma getslice_ext (l1 l2 : bytes) (start stop : nat) :
  (∀ q, start ≤ q < stop → l1 !! q = l2 !! q) →
  getslice l1 start stop = getslice l2 start stop.
Proof.
  intros Hq. unfold getslice. apply list_eq. intros i.
  destruct (decide (i < stop - start)).
  - rewrite !lookup_take_lt, !lookup_drop by done. apply Hq. lia.
  - by rewrite !lookup_take_ge by lia.
Qed.

Lemma getslice_lookup (l : bytes) (start stop q : nat) :
  start + q < stop → getslice l start stop !! q = l !! (start + q).
Proof.
  intros Hq. unfold getslice. rewrite lookup_take_lt by lia. apply lookup_drop.
Qed.

Lemma occurs_at_lookup (key l : bytes) (j q : nat) :
  occurs_at key l j → q < length key → l !! (j + q) = key !! q.
Proof.
  intros Ho Hq. apply occurs_at_getslice in Ho.
  rewrite <- (getslice_lookup l j (j + length key) q) by lia. by rewrite Ho.
Qed.

(** A write into the window of one field leaves a field that is apart from
    it where it was. *)
Lemma field_at_setslice (buf key1 key2 bs : bytes) (o1 o2 : nat) (v1 : Z) :
  let vo1 := value_offset_of o1 key1 DoubleProperty in
  vo1 + 8 ≤ length buf →
  length bs = 8 →
  (vo1 + 8 ≤ o2 ∨ value_offset_of o2 key2 DoubleProperty + 8 ≤ vo1) →
  Forall (λ c, c ∉ key2) bs →
  field_at buf key2 o2 →
  field_at (setslice buf vo1 (vo1 + 8) bs) key2 o2
  ∧ ∀ q, o2 ≤ q < value_offset_of o2 key2 DoubleProperty + 8 →
         setslice buf vo1 (vo1 + 8) bs !! q = buf !! q.
Proof.
  intros vo1 Hfit Hlen Hsep Halpha (Hi & Htag & Hfit2).
  set (vo2 := value_offset_of o2 key2 DoubleProperty) in *.
  assert (o2 + length key2 + 5 + 14 + 10 = vo2) as Hvo2 by done.
  assert (∀ q, ¬ (vo1 ≤ q < vo1 + 8) →
               setslice buf vo1 (vo1 + 8) bs !! q = buf !! q) as Hframe.
  { intros q Hq. rewrite <- Hlen.
    destruct (decide (q < vo1)); [apply lookup_setslice_lt; lia|].
    apply lookup_setslice_ge; lia. }
  assert (∀ q, o2 ≤ q < vo2 + 8 →
               setslice buf vo1 (vo1 + 8) bs !! q = buf !! q) as Hspan.
  { intros q Hq. apply Hframe. lia. }
  split; [|done]. split; [|split].
  - destruct (index_Some _ _ _ Hi) as [Ho Hmin]. apply index_first.
    + apply occurs_at_getslice. etrans; [|exact (proj1 (occurs_at_getslice _ _ _) Ho)].
      apply getslice_ext. intros q Hq. apply Hspan. lia.
    + intros j Hj Hoj.
      assert (0 < length key2) as Hk2.
      { destruct key2 as [|c key2]; [|simpl; lia].
        assert (index buf [] = Some 0) as Hnil
          by (apply index_first; [apply prefix_nil|lia]).
        rewrite Hnil in Hi. injection Hi as <-. lia. }
      destruct (decide (j < vo1 + 8 ∧ vo1 < j + length key2)) as [[H1 H2]|Hout].
      * set (q := j `max` vo1).
        assert (vo1 ≤ q < vo1 + 8 ∧ j ≤ q < j + length key2) as [Hq1 Hq2]
          by (unfold q; lia).
        pose proof (occurs_at_lookup _ _ j (q - j) Hoj) as Hk.
        replace (j + (q - j)) with q in Hk by lia.
        rewrite <- Hlen, lookup_setslice_in in Hk by lia.
        destruct (bs !! (q - vo1)) as [c|] eqn:Hc.
        2:{ apply lookup_ge_None in Hc. lia. }
        rewrite Forall_forall in Halpha. apply (Halpha c).
        -- by eapply list_elem_of_lookup_2.
        -- eapply list_elem_of_lookup_2. symmetry. apply Hk. lia.
      * apply (Hmin j Hj). apply occurs_at_getslice.
        etrans; [|exact (proj1 (occurs_at_getslice _ _ _) Hoj)].
        apply getslice_ext. intros q Hq. symmetry. apply Hframe. lia.
  - etrans; [|exact Htag]. apply getslice_ext. intros q Hq. apply Hspan.
    unfold tag_offset in Hq. change (length (name DoubleProperty)) with 14 in Hq.
    change BODY_SIM_KEY_PADDING with 5 in Hq. lia.
  - rewrite length_setslice by lia. change (width DoubleProperty) with 8 in *. lia.
Qed.

(** A call on a field that is where [field_at] says. *)
Lemma update_body_sim_field_at (buf key : bytes) (o : nat) (v : Z) :
  field_at buf key o →
  update_body_sim key v DoubleProperty buf
  = (Returns (), setslice buf (value_offset_of o key DoubleProperty)
                   (value_offset_of o key DoubleProperty + 8) (le_split 8 v)).
Proof.
  intros (Hi & Htag & _). rewrite update_body_sim_unfold, Hi, Htag.
  by rewrite bool_decide_eq_true_2.
Qed.

Lemma update_attributes_cons (a : string) (v : Z) (rest : list (string * Z))
    (buf : bytes) :
  is_ascii a = true →
  update_attributes ((a, v) :: rest) buf
  = match update_body_sim (bytes_lit a) v DoubleProperty buf with
    | (Returns _, buf1) => update_attributes rest buf1
    | (Raises e, buf1) => (Raises e, buf1)
    end.
Proof.
  intros Ha. unfold update_attributes. cbn [for_each].
  unfold mbind at 1, cmd_bind at 1. unfold mbind at 1, cmd_bind at 1.
  unfold lift, encode_ascii. cbn [fst snd]. rewrite Ha.
  by destruct (update_body_sim _ _ _ buf) as [[[]|e] buf1].
Qed.

Lemma laid_out_setslice (buf key bs : bytes) (o : nat) (v : Z)
    (rest : list (string * Z * nat)) :
  let vo := value_offset_of o key DoubleProperty in
  vo + 8 ≤ length buf →
  bs = le_split 8 v →
  Forall (λ f, apart key o v (bytes_lit f.1.1) f.2) rest →
  laid_out buf rest →
  laid_out (setslice buf vo (vo + 8) bs) rest.
Proof.
  intros vo Hfit -> Hapart. induction rest as [|[[a' v'] o'] rest IH]; [done|].
  apply Forall_cons in Hapart as [[Hsep Halpha] Hapart].
  intros (Ha & Hv & Hfield & Hrest & Hlaid). cbn [fst snd] in *.
  split; [done|]. split; [done|]. split; [|split; [done|by apply IH]].
  by apply (field_at_setslice buf key (bytes_lit a') (le_split 8 v) o o' v).
Qed.

Lemma update_attributes_fields (fields : list (string * Z * nat)) (buf : bytes) :
  laid_out buf fields →
  ∃ buf',
    update_attributes fields.*1 buf = (Returns (), buf')
    ∧ length buf' = length buf
    ∧ Forall (λ f,
        getslice buf' (value_offset_of f.2 (bytes_lit f.1.1) DoubleProperty)
          (value_offset_of f.2 (bytes_lit f.1.1) DoubleProperty + 8)
        = le_split 8 f.1.2) fields
    ∧ ∀ q,
        Forall (λ f, ¬ (value_offset_of f.2 (bytes_lit f.1.1) DoubleProperty ≤ q
                        < value_offset_of f.2 (bytes_lit f.1.1) DoubleProperty + 8))
          fields →
        buf' !! q = buf !! q.
Proof.
  revert buf. induction fields as [|[[a v] o] rest IH]; intros buf Hlaid.
  { exists buf. repeat split; by try constructor. }
  destruct Hlaid as (Ha & Hv & Hfield & Hapart & Hrest). cbn [fst snd] in *.
  set (key := bytes_lit a) in *.
  set (vo := value_offset_of o key DoubleProperty) in *.
  assert (vo + 8 ≤ length buf) as Hfit by (by destruct Hfield as (_ & _ & ?)).
  set (buf1 := setslice buf vo (vo + 8) (le_split 8 v)).
  destruct (IH buf1) as (buf' & Hrun & Hlen & Hvals & Hframe).
  { by apply (laid_out_setslice buf key (le_split 8 v) o v). }
  exists buf'. rewrite fmap_cons. cbn [fst].
  rewrite update_attributes_cons, (update_body_sim_field_at _ _ o) by done.
  fold key vo buf1. split; [done|].
  assert (length buf1 = length buf) as Hlen1.
  { unfold buf1. rewrite length_setslice, length_le_split by lia. lia. }
  split; [lia|]. split.
  - apply Forall_cons. split; [|done]. cbn [fst snd]. fold key vo.
    etrans; [apply (getslice_ext _ buf1)|].
    + intros q Hq. apply Hframe. rewrite Forall_forall in Hapart |- *.
      intros f Hf. destruct (Hapart f Hf) as [Hsep _]. fold key vo in Hsep.
      change (width DoubleProperty) with 8 in Hsep.
      unfold value_offset_of in *. lia.
    + unfold buf1. rewrite <- (length_le_split 8 v) at 2 4.
      apply getslice_setslice_window. lia.
  - intros q Hq. apply Forall_cons in Hq as [Hq0 Hq]. cbn [fst snd] in Hq0.
    fold key vo in Hq0. rewrite Hframe by done. unfold buf1.
    rewrite <- (length_le_split 8 v) at 1.
    destruct (decide (q < vo)); [apply lookup_setslice_lt; lia|].
    apply lookup_setslice_ge; rewrite ?length_le_split; lia.
Qed.

Lemma laid_out_floats (buf : bytes) (fields : list (string * Z * nat)) :
  laid_out buf fields → Forall (λ f, is_float64 f.1.2) fields.
Proof.
  induction fields as [|[[a v] o] rest IH]; [by constructor|].
  intros (_ & Hv & _ & _ & Hrest). constructor; [done|by apply IH].
Qed.

(** The eight bytes of a double unpack to that double. *)
Lemma struct_unpack_double (data : bytes) (v : Z) :
  is_float64 v → data = le_split 8 v →
  struct_unpack fmt_d data = Returns (PyFloat v).
Proof.
  intros Hv ->. unfold struct_unpack. rewrite length_le_split. cbn [calcsize].
  rewrite bool_decide_eq_true_2 by done. by rewrite le_combine_split_id.
Qed.

(** X14. The patch loop on a blob laid out in fields.  When every
    configured attribute opens a double field of the blob at its first
    occurrence, and the fields are apart from each other, the loop of [main]
    returns; the blob keeps its length; each attribute's value window then
    unpacks to exactly the configured float; and every byte outside these
    windows is as it was. *)
Theorem update_attributes_laid_out (fields : list (string * Z * nat)) (buf : bytes) :
  laid_out buf fields →
  ∃ buf',
    update_attributes fields.*1 buf = (Returns (), buf')
    ∧ length buf' = length buf
    ∧ Forall (λ f,
        struct_unpack fmt_d
          (getslice buf' (value_offset_of f.2 (bytes_lit f.1.1) DoubleProperty)
             (value_offset_of f.2 (bytes_lit f.1.1) DoubleProperty + 8))
        = Returns (PyFloat f.1.2)) fields
    ∧ ∀ q,
        Forall (λ f, ¬ (value_offset_of f.2 (bytes_lit f.1.1) DoubleProperty ≤ q
                        < value_offset_of f.2 (bytes_lit f.1.1) DoubleProperty + 8))
          fields →
        buf' !! q = buf !! q.
Proof.
  intros Hlaid.
  destruct (update_attributes_fields fields buf Hlaid)
    as (buf' & Hrun & Hlen & Hvals & Hframe).
  exists buf'. split; [done|]. split; [done|]. split; [|done].
  pose proof (laid_out_floats _ _ Hlaid) as Hfloats.
  rewrite Forall_forall in Hvals, Hfloats |- *.
  intros f Hf. apply struct_unpack_double; [by apply Hfloats|by apply Hvals].
Qed.

Lemma update_attributes_laid_out_witness :
  ∃ buf',
    update_attributes Attributes.SET_ATTRIBUTES sample_blob = (Returns (), buf')
    ∧ length buf' = length sample_blob.
Proof.
  destruct (update_attributes_laid_out sample_fields sample_blob)
    as (buf' & Hrun & Hlen & _).
  - assert (∀ v, (0 ≤ v < 2 ^ 64)%Z → is_float64 v) as Hf by done.
    repeat split;
      repeat (apply Forall_cons; split); try apply Forall_nil;
      try apply Hf; try (by vm_compute); try (vm_compute; lia);
      try (apply (bool_decide_unpack _); by vm_compute).
  - exists buf'. split; [exact Hrun|exact Hlen].
Defined.



Lemma update_body_sim_length_le (key : bytes) (value : Z) (buf buf' : bytes) :
  update_body_sim key value DoubleProperty buf = (Returns (), buf') →
  length buf ≤ length buf'.
Proof.
  intros Hrun.
  destruct (update_body_sim_Returns _ _ _ _ _ Hrun) as (ko & bs & _ & _ & Hp & ->).
  apply struct_pack_length in Hp. rewrite length_setslice by lia.
  change (width DoubleProperty) with 8. change (calcsize _) with 8 in Hp. lia.
Qed.

(** X16. The patch loop never shortens the blob: whatever the attributes
    and the blob, when the loop returns the blob is at least as long as it
    was. *)
Theorem update_attributes_never_shortens (SET_ATTRIBUTES : list (string * Z))
    (buf buf' : bytes) :
  update_attributes SET_ATTRIBUTES buf = (Returns (), buf') →
  length buf ≤ length buf'.
Proof.
  revert buf. induction SET_ATTRIBUTES as [|[a v] rest IH]; intros buf.
  { by intros [= <-]. }
  unfold update_attributes. cbn [for_each].
  unfold mbind at 1, cmd_bind at 1. unfold mbind at 1, cmd_bind at 1.
  unfold lift, encode_ascii. cbn [fst snd].
  destruct (is_ascii a); [|done].
  destruct (update_body_sim (bytes_lit a) v DoubleProperty buf)
    as [[[]|e] buf1] eqn:Hstep; [|done].
  intros Hrest. apply update_body_sim_length_le in Hstep.
  apply IH in Hrest. lia.
Qed.

Lemma update_attributes_never_shortens_witness :
  length blob_cut
  ≤ length (update_attributes [("BaseStrength", f64_8)] blob_cut).2.
Proof.
  apply (update_attributes_never_shortens [("BaseStrength", f64_8)]).
  by vm_compute.
Defined.
